(** * Thorlabs filter flipper driver: a shallow embedding

    Source: [instrumental/drivers/motion/filter_flipper.py].

    The driver is a thin stateful wrapper around the vendor library
    (Thorlabs Kinesis, [FF_*] functions).  The embedding keeps the vendor
    library abstract (a transition function on an arbitrary device state),
    records every call that crosses the native boundary in a trace, and
    writes the Python methods in a small state-and-exception monad.

    Idealisations, stated once:
    - Python numbers that carry a physical magnitude are exact rationals
      ([Q]) kept in lowest terms; integer codes returned by the vendor
      library are [Z].
    - [check_units] only checks that an argument is a time quantity (and
      parses the string defaults); here this is carried by the type
      [Quantity].  [check_enums] only checks membership in the enumeration;
      here this is carried by the type [Position].
    - The vendor functions return their status code to the caller
      ([_ret_wrap = None]); they do not raise. *)

From Stdlib Require Import ZArith QArith Qreduction Qround Lia.
From Stdlib Require Qcanon.
From stdpp Require Import base strings pretty list gmap.

Local Open Scope string_scope.
Local Open Scope Z_scope.

(** ** Time quantities ([pint] quantities of dimension time) *)

Inductive time_unit : Type := u_ns | u_us | u_ms | u_s | u_min | u_h.

Definition seconds_per (u : time_unit) : Q :=
  match u with
  | u_ns => 1 # 1000000000
  | u_us => 1 # 1000000
  | u_ms => 1 # 1000
  | u_s => 1
  | u_min => 60
  | u_h => 3600
  end%Q.

Record Quantity : Type := Q_ { magnitude : Q; units : time_unit }.

(** [q.to(u)]: the same duration expressed in unit [u]. *)
Definition to (u : time_unit) (q : Quantity) : Quantity :=
  Q_ (Qred (magnitude q * seconds_per (units q) / seconds_per u)) u.

(** The string defaults of the source: ['200ms'], ['100ms'], ['500ms']. *)
Definition default_polling_period : Quantity := Q_ 200 u_ms.
Definition default_delay : Quantity := Q_ 100 u_ms.
Definition default_transit_time : Quantity := Q_ 500 u_ms.

(** ** [class Position(Enum)] *)

Inductive Position : Type := one | two | moving.

Definition value (p : Position) : Z :=
  match p with one => 1 | two => 2 | moving => 0 end.

Definition Position_eqb (p q : Position) : bool :=
  match p, q with
  | one, one | two, two | moving, moving => true
  | _, _ => false
  end.

(** [Position(code)]: lookup of a member by value. *)
Definition Position_of_value (code : Z) : option Position :=
  if code =? 1 then Some one
  else if code =? 2 then Some two
  else if code =? 0 then Some moving
  else None.

(** [int(x)] of a Python integer. *)
Definition int (x : Z) : Z := x.

(** ** Exceptions *)

Inductive exn : Type :=
| ValueError (msg : string)
| TypeError (msg : string)
| Exception (msg : string)
| InstrumentTypeError.

Inductive outcome (A : Type) : Type :=
| Return (a : A)
| Raise (e : exn)
| Pending.
Arguments Return {A} a.
Arguments Raise {A} e.
Arguments Pending {A}.

(** ** The native boundary *)

(** The vendor functions the wrapper object exposes.  [StopPolling] is
    declared by the source ([NiceObjectDef]) like the others. *)
Inductive native : Type :=
| Open
| Close
| LoadSettings
| StartPolling (milliseconds : Q)
| StopPolling
| GetPosition
| MoveToPosition (position : Z)
| GetTransitTime
| SetTransitTime (transitTime : Q)
| Home.

Inductive event : Type :=
| Native (serialNo : string) (f : native)
| Sleep (secs : Q).

(** The vendor library together with the physical device, as seen from
    Python: each call returns an integer and may change the device; time
    that passes during [sleep] may change the device too. *)
Class Kinesis (D : Type) : Type := {
  FF : string -> native -> D -> Z * D;
  elapse : Q -> D -> D
}.

(** The attributes [__init__] and [_start_polling] store on [self]. *)
Record Filter_Flipper : Type := {
  serial : string;
  polling_period : option Q
}.

Record runtime (D : Type) : Type := {
  self : Filter_Flipper;
  device : D;
  trace : list event
}.
Arguments self {D} r.
Arguments device {D} r.
Arguments trace {D} r.

Definition boot {D : Type} (d : D) : runtime D :=
  {| self := {| serial := ""; polling_period := None |};
     device := d; trace := [] |}.

(** ** The monad of driver code *)

Definition Py (D A : Type) : Type := runtime D -> outcome A * runtime D.

Definition ret {D A} (a : A) : Py D A := fun r => (Return a, r).

Definition raise {D A} (e : exn) : Py D A := fun r => (Raise e, r).

Definition diverge {D A} : Py D A := fun r => (Pending, r).

Definition bind {D A B} (m : Py D A) (k : A -> Py D B) : Py D B :=
  fun r =>
    match m r with
    | (Return a, r') => k a r'
    | (Raise e, r') => (Raise e, r')
    | (Pending, r') => (Pending, r')
    end.

Declare Scope py_scope.
Delimit Scope py_scope with py.
Notation "x <- m ;; k" := (bind m (fun x => k))
  (at level 100, m at next level, right associativity) : py_scope.
Notation "m ;; k" := (bind m (fun _ => k))
  (at level 100, right associativity) : py_scope.
Local Open Scope py_scope.

Section Driver.

Context {D : Type} {K : Kinesis D}.

(** [self._NiceFF.f(...)]: the call goes to the vendor library with the
    serial number the object was built with. *)
Definition nice (f : native) : Py D Z :=
  fun r =>
    let sn := serial (self r) in
    let '(code, d) := FF sn f (device r) in
    (Return code,
     {| self := self r; device := d; trace := trace r ++ [Native sn f] |}).

(** [time.sleep(secs)]. *)
Definition sleep (secs : Q) : Py D unit :=
  fun r =>
    if Qle_bool 0 secs then
      (Return tt,
       {| self := self r; device := elapse secs (device r);
          trace := trace r ++ [Sleep secs] |})
    else (Raise (ValueError "sleep length must be non-negative"), r).

Definition set_serial (sn : string) : Py D unit :=
  fun r =>
    (Return tt,
     {| self := {| serial := sn; polling_period := polling_period (self r) |};
        device := device r; trace := trace r |}).

Definition set_polling_period (p : Q) : Py D unit :=
  fun r =>
    (Return tt,
     {| self := {| serial := serial (self r); polling_period := Some p |};
        device := device r; trace := trace r |}).

(** ** [class Filter_Flipper] *)

Definition _open : Py D Z := nice Open.

Definition close : Py D Z := nice Close.

Definition _start_polling (period : Quantity) : Py D Z :=
  let p := magnitude (to u_ms period) in
  set_polling_period p ;;
  nice (StartPolling p).

Definition __init__ (sn : string) (period : Quantity) : Py D unit :=
  set_serial sn ;;
  _open ;;
  nice LoadSettings ;;
  _start_polling period ;;
  ret tt.

Definition get_position : Py D Position :=
  position <- nice GetPosition ;;
  match Position_of_value position with
  | Some p => ret p
  | None => raise (ValueError (pretty position +:+ " is not a valid Position"))
  end.

Definition isValidPosition (position : Position) : bool :=
  let ismoving := Position_eqb position moving in
  let isposition := true in
  if ismoving || negb isposition then false else true.

Definition move_to (position : Position) : Py D Z :=
  if negb (isValidPosition position) then
    raise (ValueError "Not a valid position")
  else
    nice (MoveToPosition (value position)).

Definition flip : Py D Z :=
  position <- get_position ;;
  if Position_eqb position one then move_to two
  else if Position_eqb position two then move_to one
  else raise (Exception
    "Could not flip because the current position is not valid").

Definition home : Py D Z := nice Home.

Definition get_transit_time : Py D Quantity :=
  transit_time <- nice GetTransitTime ;;
  ret (Q_ (inject_Z transit_time) u_ms).

Definition set_transit_time (transit_time : Quantity) : Py D Z :=
  let transit_time := magnitude (to u_ms transit_time) in
  code <- nice (SetTransitTime transit_time) ;;
  ret (int code).

(** [while self.get_position() != position: sleep(delay)].  The loop has
    no bound in the source; [fuel] bounds the number of position queries
    the model unfolds, and [Pending] says the loop is still running. *)
Fixpoint wait_loop (fuel : nat) (position : Position) (delay : Quantity)
  : Py D unit :=
  match fuel with
  | O => diverge
  | S fuel' =>
      p <- get_position ;;
      if negb (Position_eqb p position) then
        sleep (magnitude (to u_s delay)) ;;
        wait_loop fuel' position delay
      else ret tt
  end.

Definition move_and_wait (fuel : nat) (position : Position)
  (delay : Quantity) : Py D unit :=
  current_position <- get_position ;;
  if negb (isValidPosition position) then
    raise (ValueError "Not a valid position")
  else if negb (Position_eqb current_position position) then
    transit_time <- get_transit_time ;;
    move_to position ;;
    sleep (magnitude (to u_s transit_time)) ;;
    wait_loop fuel position delay
  else ret tt.

(** [_instrument(params)]: [params] is a dictionary with string keys. *)
Definition _instrument (params : gmap string string) : Py D unit :=
  let d : gmap string string :=
    match params !! "ff_serial" with
    | Some v => <["serial" := v]> ∅
    | None => ∅
    end in
  if decide (d = ∅) then raise InstrumentTypeError
  else
    match d !! "serial" with
    | Some sn => __init__ sn default_polling_period
    | None => raise (TypeError
        "__init__() missing 1 required positional argument: 'serial'")
    end.

End Driver.

(** ** Counting calls in a trace *)

Definition is_MoveToPosition (f : native) : bool :=
  match f with MoveToPosition _ => true | _ => false end.

Definition is_StopPolling (f : native) : bool :=
  match f with StopPolling => true | _ => false end.

Definition is_Close (f : native) : bool :=
  match f with Close => true | _ => false end.

Definition is_Open (f : native) : bool :=
  match f with Open => true | _ => false end.

Fixpoint count_native (P : native -> bool) (tr : list event) : nat :=
  match tr with
  | [] => O
  | Native _ f :: tr' => ((if P f then 1 else 0) + count_native P tr')%nat
  | Sleep _ :: tr' => count_native P tr'
  end.

(** ** A simulated flipper

    A deterministic stand-in for the vendor library and the device, used
    to run the driver on concrete inputs.  A move takes [lag] sleeps to
    complete; the device reports [0] until then.  A transit time or a
    polling period that is not a whole number of milliseconds is cut to
    its integer part, as a conversion to the native integer parameter
    does. *)

Record flipper_sim : Type := {
  attached : list string;
  reported : Z;
  goal : Z;
  countdown : nat;
  lag : nat;
  transit : Z;
  polling : option Q
}.

Definition sim_start_move (target : Z) (d : flipper_sim) : flipper_sim :=
  {| attached := attached d; reported := 0; goal := target;
     countdown := lag d; lag := lag d; transit := transit d;
     polling := polling d |}.

Definition sim_FF (sn : string) (f : native) (d : flipper_sim)
  : Z * flipper_sim :=
  if bool_decide (sn ∈ attached d) then
    match f with
    | Open | Close | Home | LoadSettings => (0, d)
    | StartPolling p =>
        (1, {| attached := attached d; reported := reported d;
               goal := goal d; countdown := countdown d; lag := lag d;
               transit := transit d;
               polling := Some (inject_Z (Qfloor p)) |})
    | StopPolling =>
        (0, {| attached := attached d; reported := reported d;
               goal := goal d; countdown := countdown d; lag := lag d;
               transit := transit d; polling := None |})
    | GetPosition => (reported d, d)
    | MoveToPosition target => (0, sim_start_move target d)
    | GetTransitTime => (transit d, d)
    | SetTransitTime x =>
        (0, {| attached := attached d; reported := reported d;
               goal := goal d; countdown := countdown d; lag := lag d;
               transit := Qfloor x; polling := polling d |})
    end
  else (2, d).

Definition sim_elapse (secs : Q) (d : flipper_sim) : flipper_sim :=
  match countdown d with
  | O => d
  | S O =>
      {| attached := attached d; reported := goal d; goal := goal d;
         countdown := O; lag := lag d; transit := transit d;
         polling := polling d |}
  | S k =>
      {| attached := attached d; reported := reported d; goal := goal d;
         countdown := k; lag := lag d; transit := transit d;
         polling := polling d |}
  end.

#[export] Instance sim_Kinesis : Kinesis flipper_sim :=
  {| FF := sim_FF; elapse := sim_elapse |}.

(** A flipper with serial number 37000001 resting at [code], whose moves
    take [n] sleeps. *)
Definition sim_device (code : Z) (n : nat) : flipper_sim :=
  {| attached := ["37000001"]; reported := code; goal := code;
     countdown := O; lag := n; transit := 500; polling := Some 200%Q |}.

Definition sim_runtime (code : Z) (n : nat) : runtime flipper_sim :=
  {| self := {| serial := "37000001"; polling_period := Some 200%Q |};
     device := sim_device code n; trace := [] |}.

(** No flipper is connected. *)
Definition sim_nothing : flipper_sim :=
  {| attached := []; reported := 0; goal := 0; countdown := O; lag := O;
     transit := 0; polling := None |}.

(** ** What the device reports to the polling loop *)

Section Polling.

Context {D : Type} {K : Kinesis D}.
Variables (sn : string) (target : Position) (delay : Quantity).

(** The device as the [k]-th position query of the polling loop finds
    it, the loop having been entered with the device in state [d]:
    between two queries the loop sleeps [delay]. *)
Fixpoint poll_device (k : nat) (d : D) : D :=
  match k with
  | O => d
  | S k' =>
      poll_device k'
        (elapse (magnitude (to u_s delay)) (snd (FF sn GetPosition d)))
  end.

(** The code the [k]-th query of the loop receives. *)
Definition poll_report (k : nat) (d : D) : Z :=
  fst (FF sn GetPosition (poll_device k d)).

(** Query [n] is the first to report [target], the queries before it
    having reported other positions. *)
Fixpoint arrives_at (n : nat) (d : D) : bool :=
  match Position_of_value (fst (FF sn GetPosition d)) with
  | Some p =>
      match n with
      | O => Position_eqb p target
      | S n' =>
          negb (Position_eqb p target)
          && arrives_at n'
               (elapse (magnitude (to u_s delay)) (snd (FF sn GetPosition d)))
      end
  | None => false
  end.

(** The events of a loop that leaves at query [n]. *)
Fixpoint poll_trace (n : nat) : list event :=
  match n with
  | O => [Native sn GetPosition]
  | S n' =>
      Native sn GetPosition :: Sleep (magnitude (to u_s delay))
        :: poll_trace n'
  end.

End Polling.

(** ** Rounding to whole milliseconds, as the specification words it *)

(** The integer nearest to [x]. *)
Definition nearest (x : Q) : Z := Qfloor (x + (1 # 2)).

(** ** More about the polling loop *)

Section Waiting.

Context {D : Type} {K : Kinesis D}.
Variables (sn : string) (target : Position) (delay : Quantity).

(** The first [n] queries of the loop all report positions other than
    [target]. *)
Fixpoint waits_through (n : nat) (d : D) : bool :=
  match n with
  | O => true
  | S n' =>
      match Position_of_value (fst (FF sn GetPosition d)) with
      | Some p =>
          negb (Position_eqb p target)
          && waits_through n'
               (elapse (magnitude (to u_s delay)) (snd (FF sn GetPosition d)))
      | None => false
      end
  end.

(** The events of [n] rounds of the loop: a query, then a sleep. *)
Fixpoint wait_trace (n : nat) : list event :=
  match n with
  | O => []
  | S n' =>
      Native sn GetPosition :: Sleep (magnitude (to u_s delay))
        :: wait_trace n'
  end.

End Waiting.

(** ** Reading a trace *)

(** The time spent sleeping, in seconds. *)
Fixpoint slept (tr : list event) : Q :=
  match tr with
  | [] => 0%Q
  | Sleep secs :: tr' => (secs + slept tr')%Q
  | Native _ _ :: tr' => slept tr'
  end.

(** A native call goes to the flipper with serial number [sn]. *)
Definition addressed_to (sn : string) (e : event) : Prop :=
  match e with
  | Native s _ => s = sn
  | Sleep _ => True
  end.

(** A move is commanded to position code 1 or 2. *)
Definition commands_stable (e : event) : Prop :=
  match e with
  | Native _ (MoveToPosition code) => code = 1 \/ code = 2
  | _ => True
  end.

(** Both at once. *)
Definition own_stable (sn : string) (e : event) : Prop :=
  addressed_to sn e /\ commands_stable e.

(** Whatever its outcome, [m] leaves the attributes of [self] alone and
    only appends events that satisfy [P] to the trace. *)
Definition emits {D A : Type} (P : string -> event -> Prop) (m : Py D A)
  : Prop :=
  forall r : runtime D,
    self (snd (m r)) = self r /\
    exists ev : list event,
      trace (snd (m r)) = (trace r ++ ev)%list /\
      Forall (P (serial (self r))) ev.

(** ** The user configuration ([instrumental/__init__.py])

    What [parser.read] found in the configuration file: the names of the
    sections and the options of each. *)

Record RawConfigParser : Type := {
  sections : list string;
  items : string -> list (string * string)
}.

(** [section = {}; for key, value in ...: section[key] = value]. *)
Definition read_section (kvs : list (string * string)) : gmap string string :=
  foldl (fun section kv => <[kv.1 := kv.2]> section) ∅ kvs.

(** [settings = {}; for section_str in parser.sections(): ...]. *)
Definition read_settings (parser : RawConfigParser)
  : gmap string (gmap string string) :=
  foldl (fun settings section_str =>
           <[section_str := read_section (items parser section_str)]> settings)
        ∅ (sections parser).

(** The body of the [try]; [None] is a [KeyError]. *)
Definition default_server_alias (settings : gmap string (gmap string string))
  : option (gmap string (gmap string string)) :=
  prefs ← settings !! "prefs";
  def_serv ← prefs !! "default_server";
  servers ← settings !! "servers";
  if bool_decide (def_serv ∈ (dom servers : gset string)) then
    address ← servers !! def_serv;
    Some (<["prefs" := <["default_server" := address]> prefs]> settings)
  else Some settings.

(** [try: ... except KeyError: pass]. *)
Definition resolve_default_server
  (settings : gmap string (gmap string string))
  : gmap string (gmap string string) :=
  default settings (default_server_alias settings).

(** ** A simulated flipper that fails

    It rests at position one, reports 0 while less than three sleeps have
    passed, and the code 7 from then on. *)

Definition faulty_FF (sn : string) (f : native) (sleeps : nat) : Z * nat :=
  match f with
  | GetPosition =>
      (match sleeps with
       | O => 1
       | S O | S (S O) => 0
       | _ => 7
       end, sleeps)
  | GetTransitTime => (500, sleeps)
  | _ => (0, sleeps)
  end.

#[export] Instance faulty_Kinesis : Kinesis nat :=
  {| FF := faulty_FF; elapse := fun _ sleeps => S sleeps |}.

Definition faulty_runtime : runtime nat :=
  {| self := {| serial := "37000001"; polling_period := Some 200%Q |};
     device := O; trace := [] |}.

(** ** A configuration to try the settings on

    [prefs] names the default server by an alias that [servers] spells
    out. *)

Definition example_prefs : gmap string string :=
  <["default_server" := "lab"]> (<["data_dir" := "~/data"]> ∅).

Definition example_servers : gmap string string :=
  <["lab" := "192.168.1.5:28265"]> (<["office" := "10.0.0.7:28265"]> ∅).

Definition example_settings : gmap string (gmap string string) :=
  <["prefs" := example_prefs]> (<["servers" := example_servers]> ∅).

(** * Properties *)

Section Properties.

Context {D : Type} {K : Kinesis D}.
Implicit Types (r : runtime D) (p t : Position) (delay : Quantity).

(** ** Basic equations of the monad and of the primitive effects *)

Lemma bind_Return {A B} (m : Py D A) (k : A -> Py D B) r a r' :
  m r = (Return a, r') -> bind m k r = k a r'.
Proof. intros H. unfold bind. now rewrite H. Qed.

Lemma bind_Raise {A B} (m : Py D A) (k : A -> Py D B) r e r' :
  m r = (Raise e, r') -> bind m k r = (Raise e, r').
Proof. intros H. unfold bind. now rewrite H. Qed.

Lemma nice_eq f r :
  nice f r =
  (Return (fst (FF (serial (self r)) f (device r))),
   {| self := self r;
      device := snd (FF (serial (self r)) f (device r));
      trace := trace r ++ [Native (serial (self r)) f] |}).
Proof. unfold nice. now destruct (FF (serial (self r)) f (device r)). Qed.

Lemma count_native_app P (a b : list event) :
  count_native P (a ++ b) = (count_native P a + count_native P b)%nat.
Proof.
  induction a as [|[s f|q] a IH]; simpl; [reflexivity | | exact IH].
  rewrite IH. lia.
Qed.

Lemma Position_eqb_eq p q : Position_eqb p q = true <-> p = q.
Proof. destruct p, q; simpl; split; congruence. Qed.

Lemma Position_eqb_neq p q : Position_eqb p q = false <-> p <> q.
Proof. destruct p, q; simpl; split; congruence. Qed.

Lemma Position_of_value_value p : Position_of_value (value p) = Some p.
Proof. now destruct p. Qed.

Lemma Position_of_value_Some code p :
  Position_of_value code = Some p <-> code = value p.
Proof.
  split.
  - unfold Position_of_value.
    destruct (Z.eqb_spec code 1); [intros [= <-]; now subst |].
    destruct (Z.eqb_spec code 2); [intros [= <-]; now subst |].
    destruct (Z.eqb_spec code 0); [intros [= <-]; now subst |].
    discriminate.
  - intros ->. apply Position_of_value_value.
Qed.

(** [get_position] on a device that reports a member of [Position]. *)
Lemma get_position_Some r p :
  Position_of_value (fst (FF (serial (self r)) GetPosition (device r)))
    = Some p ->
  get_position r =
  (Return p,
   {| self := self r;
      device := snd (FF (serial (self r)) GetPosition (device r));
      trace := trace r ++ [Native (serial (self r)) GetPosition] |}).
Proof.
  intros H. unfold get_position.
  rewrite (bind_Return _ _ _ _ _ (nice_eq GetPosition r)).
  now rewrite H.
Qed.

(** [get_position] on a device that reports anything else. *)
Lemma get_position_None r :
  Position_of_value (fst (FF (serial (self r)) GetPosition (device r)))
    = None ->
  get_position r =
  (Raise (ValueError
            (pretty (fst (FF (serial (self r)) GetPosition (device r)))
             +:+ " is not a valid Position")),
   {| self := self r;
      device := snd (FF (serial (self r)) GetPosition (device r));
      trace := trace r ++ [Native (serial (self r)) GetPosition] |}).
Proof.
  intros H. unfold get_position.
  rewrite (bind_Return _ _ _ _ _ (nice_eq GetPosition r)).
  now rewrite H.
Qed.

(** ** isValidPosition *)

(** C8: [isValidPosition] is a function of the position alone; it is true
    of [one] and of [two] and false of [moving]. *)
Theorem isValidPosition_spec :
  isValidPosition one = true /\
  isValidPosition two = true /\
  isValidPosition moving = false /\
  forall p, isValidPosition p = negb (Position_eqb p moving).
Proof. repeat split. now intros []. Qed.

(** ** get_position *)

(** C10: [get_position] returns [moving], [one], [two] exactly on the
    native codes 0, 1, 2; on every other code it raises instead of
    returning a position. *)
Theorem get_position_codes r :
  fst (get_position r) =
  match fst (FF (serial (self r)) GetPosition (device r)) with
  | 0 => Return moving
  | 1 => Return one
  | 2 => Return two
  | code => Raise (ValueError (pretty code +:+ " is not a valid Position"))
  end.
Proof.
  destruct (Position_of_value
              (fst (FF (serial (self r)) GetPosition (device r)))) as [p|] eqn:E.
  - rewrite (get_position_Some _ _ E). simpl.
    apply Position_of_value_Some in E. rewrite E. now destruct p.
  - rewrite (get_position_None _ E). simpl. revert E.
    unfold Position_of_value.
    destruct (fst (FF (serial (self r)) GetPosition (device r)))
      as [|[q|[q|q|]|]|q]; simpl; try discriminate; reflexivity.
Qed.

(** ** flip *)

(** C2: with the device reporting position one, [flip] issues a move to
    two; reporting two, a move to one; reporting moving, it raises
    without issuing a move. *)
Theorem flip_spec r :
  let sn := serial (self r) in
  let code := fst (FF sn GetPosition (device r)) in
  let d1 := snd (FF sn GetPosition (device r)) in
  (code = 1 ->
   flip r =
   (Return (fst (FF sn (MoveToPosition 2) d1)),
    {| self := self r; device := snd (FF sn (MoveToPosition 2) d1);
       trace := trace r ++ [Native sn GetPosition;
                            Native sn (MoveToPosition 2)] |})) /\
  (code = 2 ->
   flip r =
   (Return (fst (FF sn (MoveToPosition 1) d1)),
    {| self := self r; device := snd (FF sn (MoveToPosition 1) d1);
       trace := trace r ++ [Native sn GetPosition;
                            Native sn (MoveToPosition 1)] |})) /\
  (code = 0 ->
   flip r =
   (Raise (Exception
      "Could not flip because the current position is not valid"),
    {| self := self r; device := d1;
       trace := trace r ++ [Native sn GetPosition] |})).
Proof.
  intros sn code d1.
  assert (G : forall p, code = value p ->
    flip r = (if Position_eqb p one then move_to two
              else if Position_eqb p two then move_to one
              else raise (Exception
                "Could not flip because the current position is not valid"))
             {| self := self r; device := d1;
                trace := trace r ++ [Native sn GetPosition] |}).
  { intros p Hc. unfold flip.
    now rewrite (bind_Return _ _ _ _ _ (get_position_Some r p
      (proj2 (Position_of_value_Some _ _) Hc))). }
  repeat split; intros Hc.
  - rewrite (G one Hc). simpl. unfold move_to. simpl.
    rewrite nice_eq. simpl. now rewrite <- app_assoc.
  - rewrite (G two Hc). simpl. unfold move_to. simpl.
    rewrite nice_eq. simpl. now rewrite <- app_assoc.
  - now rewrite (G moving Hc).
Qed.

(** ** Targets that are not positions to move to *)

(** C3: [move_to moving] raises [ValueError] without touching the device,
    and [move_and_wait moving delay] raises [ValueError] after its one
    position query, whatever the device and the delay. *)
Theorem moving_target_rejected r fuel delay :
  let sn := serial (self r) in
  let code := fst (FF sn GetPosition (device r)) in
  move_to moving r = (Raise (ValueError "Not a valid position"), r) /\
  move_and_wait fuel moving delay r =
  (Raise (ValueError
     match Position_of_value code with
     | Some _ => "Not a valid position"
     | None => pretty code +:+ " is not a valid Position"
     end),
   {| self := self r; device := snd (FF sn GetPosition (device r));
      trace := trace r ++ [Native sn GetPosition] |}).
Proof.
  intros sn code. split; [reflexivity |].
  unfold move_and_wait.
  destruct (Position_of_value code) as [p|] eqn:E.
  - now rewrite (bind_Return _ _ _ _ _ (get_position_Some r _ E)).
  - now rewrite (bind_Raise _ _ _ _ _ (get_position_None r E)).
Qed.

(** ** Already at the target *)

(** C4: when the device already reports the valid target, [move_and_wait]
    returns after its one position query: no move is issued, nothing
    sleeps, and the device is as that query left it (unchanged, when the
    query is a pure read). *)
Theorem move_and_wait_already_there r t fuel delay :
  isValidPosition t = true ->
  Position_of_value (fst (FF (serial (self r)) GetPosition (device r)))
    = Some t ->
  move_and_wait fuel t delay r =
  (Return tt,
   {| self := self r;
      device := snd (FF (serial (self r)) GetPosition (device r));
      trace := trace r ++ [Native (serial (self r)) GetPosition] |}) /\
  count_native is_MoveToPosition (trace (snd (move_and_wait fuel t delay r)))
    = count_native is_MoveToPosition (trace r) /\
  (snd (FF (serial (self r)) GetPosition (device r)) = device r ->
   device (snd (move_and_wait fuel t delay r)) = device r).
Proof.
  intros Hv Hp.
  assert (E : move_and_wait fuel t delay r =
    (Return tt,
     {| self := self r;
        device := snd (FF (serial (self r)) GetPosition (device r));
        trace := trace r ++ [Native (serial (self r)) GetPosition] |})).
  { unfold move_and_wait.
    rewrite (bind_Return _ _ _ _ _ (get_position_Some r _ Hp)).
    rewrite Hv. simpl.
    now rewrite (proj2 (Position_eqb_eq t t) eq_refl). }
  split; [exact E |]. rewrite E. simpl. split; [| intros H; exact H].
  rewrite count_native_app. simpl. lia.
Qed.

(** ** Moving and waiting for arrival *)

Lemma seconds_per_pos u : (0 < seconds_per u)%Q.
Proof. now destruct u. Qed.

Lemma to_nonneg u (q : Quantity) :
  (0 <= magnitude q)%Q -> Qle_bool 0 (magnitude (to u q)) = true.
Proof.
  intros H. apply Qle_bool_iff. unfold to. simpl. rewrite Qred_correct.
  apply Qmult_le_0_compat.
  - apply Qmult_le_0_compat; [exact H | apply Qlt_le_weak, seconds_per_pos].
  - apply Qinv_le_0_compat, Qlt_le_weak, seconds_per_pos.
Qed.

(** A number of milliseconds, in seconds. *)
Lemma ms_in_seconds z :
  (magnitude (to u_s (Q_ (inject_Z z) u_ms)) == inject_Z z / 1000)%Q.
Proof.
  unfold to. simpl magnitude. rewrite Qred_correct.
  unfold Qdiv. rewrite Qmult_comm, Qmult_assoc.
  change (/ 1 * inject_Z z * (1 # 1000) == inject_Z z * (1 # 1000))%Q.
  now rewrite Qmult_1_l.
Qed.

Lemma sleep_eq secs r :
  Qle_bool 0 secs = true ->
  sleep secs r =
  (Return tt,
   {| self := self r; device := elapse secs (device r);
      trace := trace r ++ [Sleep secs] |}).
Proof. intros H. unfold sleep. now rewrite H. Qed.

Lemma count_moves_poll_trace sn delay n :
  count_native is_MoveToPosition (poll_trace sn delay n) = O.
Proof. induction n as [|n IH]; simpl; [reflexivity | exact IH]. Qed.

(** [arrives_at] in terms of what the successive queries report. *)
Lemma arrives_at_reports sn t delay n :
  forall d : D,
    arrives_at sn t delay n d = true <->
    poll_report sn delay n d = value t /\
    forall k, (k < n)%nat ->
      exists p, Position_of_value (poll_report sn delay k d) = Some p /\
                p <> t.
Proof.
  induction n as [|n IH]; intros d; simpl arrives_at.
  - unfold poll_report. simpl.
    destruct (Position_of_value (fst (FF sn GetPosition d))) as [p|] eqn:E.
    + rewrite Position_eqb_eq. apply Position_of_value_Some in E.
      split.
      * intros ->. split; [exact E | intros k Hk; lia].
      * intros [H _]. rewrite H in E. destruct p, t; simpl in E; congruence.
    + split; [discriminate |]. intros [H _].
      rewrite H, Position_of_value_value in E. discriminate.
  - destruct (Position_of_value (fst (FF sn GetPosition d))) as [p|] eqn:E.
    + rewrite andb_true_iff, negb_true_iff, Position_eqb_neq, IH.
      split.
      * intros (Hne & Hn & Hk). split; [exact Hn |].
        intros [|k] Hlt; [exists p; now split |].
        apply (Hk k). lia.
      * intros (Hn & Hk). split; [| split; [exact Hn |]].
        -- destruct (Hk O ltac:(lia)) as (q & Hq & Hne).
           unfold poll_report in Hq. simpl in Hq. congruence.
        -- intros k Hlt. apply (Hk (S k)). lia.
    + split; [discriminate |]. intros (_ & Hk).
      destruct (Hk O ltac:(lia)) as (q & Hq & _).
      unfold poll_report in Hq. simpl in Hq. congruence.
Qed.

(** The loop leaves at the first query that reports the target. *)
Lemma wait_loop_arrives t delay n :
  forall fuel r,
    Qle_bool 0 (magnitude (to u_s delay)) = true ->
    arrives_at (serial (self r)) t delay n (device r) = true ->
    (n < fuel)%nat ->
    wait_loop fuel t delay r =
    (Return tt,
     {| self := self r;
        device := snd (FF (serial (self r)) GetPosition
                         (poll_device (serial (self r)) delay n (device r)));
        trace := trace r ++ poll_trace (serial (self r)) delay n |}).
Proof.
  induction n as [|n IH]; intros [|fuel] r Hs Ha Hf; try lia;
    simpl in Ha; simpl wait_loop;
    destruct (Position_of_value
                (fst (FF (serial (self r)) GetPosition (device r))))
      as [p|] eqn:E; try discriminate;
    rewrite (bind_Return _ _ _ _ _ (get_position_Some r p E)).
  - now rewrite Ha.
  - apply andb_prop in Ha as [Hne Ha]. rewrite Hne.
    rewrite (bind_Return _ _ _ _ _ (sleep_eq _ _ Hs)).
    rewrite IH; [| exact Hs | exact Ha | lia].
    simpl. now rewrite <- !app_assoc.
Qed.

(** The loop leaves only at a query that reports the target. *)
Lemma wait_loop_returns t delay fuel :
  forall r,
    fst (wait_loop fuel t delay r) = Return tt ->
    exists n, (n < fuel)%nat /\
      arrives_at (serial (self r)) t delay n (device r) = true.
Proof.
  induction fuel as [|fuel IH]; intros r; [discriminate |].
  simpl wait_loop.
  destruct (Position_of_value
              (fst (FF (serial (self r)) GetPosition (device r))))
    as [p|] eqn:E.
  - rewrite (bind_Return _ _ _ _ _ (get_position_Some r p E)).
    destruct (Position_eqb p t) eqn:Hp; simpl.
    + intros _. exists O. split; [lia |]. simpl. now rewrite E.
    + unfold bind at 1, sleep.
      destruct (Qle_bool 0 _); [| intros H; discriminate H].
      intros H. apply IH in H as (n & Hn & Ha). simpl in Ha.
      exists (S n). split; [lia |]. simpl. now rewrite E, Hp, Ha.
  - rewrite (bind_Raise _ _ _ _ _ (get_position_None r E)). discriminate.
Qed.

(** C1: for a valid target the device does not report yet,
    [move_and_wait] queries the position, reads the transit time, issues
    one move to the target, sleeps the transit time, and then queries the
    position again and again, sleeping [delay] after each query that does
    not report the target.  When query [n] is the first to report the
    target it returns, however large [n] is; and it returns only if some
    query reports the target. *)
Theorem move_and_wait_polls_until_arrival r t delay p0 :
  let sn := serial (self r) in
  let d1 := snd (FF sn GetPosition (device r)) in
  let transit := fst (FF sn GetTransitTime d1) in
  let d2 := snd (FF sn GetTransitTime d1) in
  let d3 := snd (FF sn (MoveToPosition (value t)) d2) in
  let wait := magnitude (to u_s (Q_ (inject_Z transit) u_ms)) in
  let d4 := elapse wait d3 in
  isValidPosition t = true ->
  Position_of_value (fst (FF sn GetPosition (device r))) = Some p0 ->
  p0 <> t ->
  0 <= transit ->
  (0 <= magnitude delay)%Q ->
  (forall n fuel,
     arrives_at sn t delay n d4 = true -> (n < fuel)%nat ->
     move_and_wait fuel t delay r =
     (Return tt,
      {| self := self r;
         device := snd (FF sn GetPosition (poll_device sn delay n d4));
         trace := trace r ++
           [Native sn GetPosition; Native sn GetTransitTime;
            Native sn (MoveToPosition (value t)); Sleep wait]
           ++ poll_trace sn delay n |}) /\
     count_native is_MoveToPosition
       ([Native sn GetPosition; Native sn GetTransitTime;
         Native sn (MoveToPosition (value t)); Sleep wait]
        ++ poll_trace sn delay n) = 1%nat) /\
  (forall fuel,
     fst (move_and_wait fuel t delay r) = Return tt ->
     exists n, (n < fuel)%nat /\ arrives_at sn t delay n d4 = true).
Proof.
  intros sn d1 transit d2 d3 wait d4 Hv Hp Hne Htr Hd.
  assert (Hw : Qle_bool 0 wait = true).
  { apply to_nonneg. simpl. unfold Qle. simpl. lia. }
  assert (E : forall fuel,
    move_and_wait fuel t delay r =
    wait_loop fuel t delay
      {| self := self r; device := d4;
         trace := trace r ++
           [Native sn GetPosition; Native sn GetTransitTime;
            Native sn (MoveToPosition (value t)); Sleep wait] |}).
  { intros fuel. unfold move_and_wait.
    rewrite (bind_Return _ _ _ _ _ (get_position_Some r p0 Hp)).
    rewrite Hv. simpl.
    rewrite (proj2 (Position_eqb_neq p0 t) Hne). simpl.
    unfold get_transit_time.
    rewrite (bind_Return _ _ _ _ _
      (bind_Return _ _ _ _ _ (nice_eq GetTransitTime _))).
    unfold move_to. rewrite Hv. simpl.
    rewrite (bind_Return _ _ _ _ _ (nice_eq _ _)). simpl.
    rewrite (bind_Return _ _ _ _ _ (sleep_eq _ _ Hw)). simpl.
    now rewrite <- !app_assoc. }
  split.
  - intros n fuel Ha Hf. split.
    + rewrite E. rewrite wait_loop_arrives with (n := n);
        [| apply to_nonneg, Hd | exact Ha | exact Hf].
      simpl. now rewrite <- !app_assoc.
    + simpl. now rewrite count_moves_poll_trace.
  - intros fuel H. rewrite E in H.
    apply wait_loop_returns in H. exact H.
Qed.

(** ** close *)

(** C6 (as the code has it): [close] issues exactly one native [Close]
    and no [StopPolling], whatever was called on the device before. *)
Theorem close_spec r :
  let sn := serial (self r) in
  close r =
  (Return (fst (FF sn Close (device r))),
   {| self := self r; device := snd (FF sn Close (device r));
      trace := trace r ++ [Native sn Close] |}) /\
  count_native is_Close (trace (snd (close r)))
    = S (count_native is_Close (trace r)) /\
  count_native is_StopPolling (trace (snd (close r)))
    = count_native is_StopPolling (trace r).
Proof.
  intros sn. unfold close. rewrite nice_eq. simpl.
  rewrite !count_native_app. simpl. repeat split; lia.
Qed.

(** ** Starting to poll, constructing *)

Lemma start_polling_eq r period :
  let sn := serial (self r) in
  let p := magnitude (to u_ms period) in
  _start_polling period r =
  (Return (fst (FF sn (StartPolling p) (device r))),
   {| self := {| serial := sn; polling_period := Some p |};
      device := snd (FF sn (StartPolling p) (device r));
      trace := trace r ++ [Native sn (StartPolling p)] |}).
Proof. intros sn p. unfold _start_polling, bind. simpl. now rewrite nice_eq. Qed.

Lemma init_eq r sn period :
  let p := magnitude (to u_ms period) in
  let d1 := snd (FF sn Open (device r)) in
  let d2 := snd (FF sn LoadSettings d1) in
  __init__ sn period r =
  (Return tt,
   {| self := {| serial := sn; polling_period := Some p |};
      device := snd (FF sn (StartPolling p) d2);
      trace := trace r ++ [Native sn Open; Native sn LoadSettings;
                           Native sn (StartPolling p)] |}).
Proof.
  intros p d1 d2. unfold __init__, _open.
  unfold bind at 1. simpl.
  rewrite (bind_Return _ _ _ _ _ (nice_eq Open _)).
  rewrite (bind_Return _ _ _ _ _ (nice_eq LoadSettings _)).
  rewrite (bind_Return _ _ _ _ _ (start_polling_eq _ period)).
  simpl. now rewrite <- !app_assoc.
Qed.

(** C7 (as the code has it): the constructor opens the native
    connection, loads the settings and starts polling for whatever serial
    number it is given, and returns; [_instrument] raises
    [InstrumentTypeError], before any native call, exactly when the
    parameters have no ['ff_serial'] entry, and constructs otherwise. *)
Theorem construction_spec r :
  (forall sn period,
     let p := magnitude (to u_ms period) in
     let d1 := snd (FF sn Open (device r)) in
     let d2 := snd (FF sn LoadSettings d1) in
     __init__ sn period r =
     (Return tt,
      {| self := {| serial := sn; polling_period := Some p |};
         device := snd (FF sn (StartPolling p) d2);
         trace := trace r ++ [Native sn Open; Native sn LoadSettings;
                              Native sn (StartPolling p)] |})) /\
  (forall params : gmap string string,
     _instrument params r =
     match params !! "ff_serial" with
     | Some sn => __init__ sn default_polling_period r
     | None => (Raise InstrumentTypeError, r)
     end).
Proof.
  split.
  - intros sn period. apply init_eq.
  - intros params. unfold _instrument.
    destruct (params !! "ff_serial") as [sn|].
    + destruct (decide (<["serial":=sn]> (∅ : gmap string string) = ∅))
        as [Hempty|_].
      * now apply insert_non_empty in Hempty.
      * now rewrite lookup_insert_eq.
    + now destruct (decide ((∅ : gmap string string) = ∅)).
Qed.

(** ** Transit time *)

Lemma Qred_inject_Z n : Qred (inject_Z n) = inject_Z n.
Proof. apply Qcanon.Qred_identity. simpl. apply Z.gcd_1_r. Qed.

(** A duration that is [n] milliseconds, in whatever unit it is given,
    converts to the magnitude [n]. *)
Lemma to_ms_whole (d : Quantity) n :
  (magnitude d * seconds_per (units d) / seconds_per u_ms == inject_Z n)%Q ->
  magnitude (to u_ms d) = inject_Z n.
Proof.
  intros H. change (magnitude (to u_ms d))
    with (Qred (magnitude d * seconds_per (units d) / seconds_per u_ms)).
  rewrite (Qred_complete _ _ H). apply Qred_inject_Z.
Qed.

(** C5 (as the code has it): [set_transit_time d] hands [d], converted
    to milliseconds and not rounded, to the native [SetTransitTime];
    [get_transit_time] returns what the native [GetTransitTime] reports,
    in milliseconds.  When [d] is a whole number [n] of milliseconds and
    the controller reports back the value it was given, setting and then
    getting returns [n] ms. *)
Theorem transit_time_round_trip r d :
  let sn := serial (self r) in
  let x := magnitude (to u_ms d) in
  let d1 := snd (FF sn (SetTransitTime x) (device r)) in
  set_transit_time d r =
  (Return (fst (FF sn (SetTransitTime x) (device r))),
   {| self := self r; device := d1;
      trace := trace r ++ [Native sn (SetTransitTime x)] |}) /\
  (set_transit_time d ;; get_transit_time) r =
  (Return (Q_ (inject_Z (fst (FF sn GetTransitTime d1))) u_ms),
   {| self := self r; device := snd (FF sn GetTransitTime d1);
      trace := trace r ++ [Native sn (SetTransitTime x);
                           Native sn GetTransitTime] |}) /\
  (forall n,
     x = inject_Z n ->
     fst (FF sn GetTransitTime
            (snd (FF sn (SetTransitTime (inject_Z n)) (device r)))) = n ->
     fst ((set_transit_time d ;; get_transit_time) r)
       = Return (Q_ (inject_Z n) u_ms)).
Proof.
  intros sn x d1.
  assert (E1 : set_transit_time d r =
    (Return (fst (FF sn (SetTransitTime x) (device r))),
     {| self := self r; device := d1;
        trace := trace r ++ [Native sn (SetTransitTime x)] |})).
  { unfold set_transit_time.
    now rewrite (bind_Return _ _ _ _ _ (nice_eq _ _)). }
  assert (E2 : (set_transit_time d ;; get_transit_time) r =
    (Return (Q_ (inject_Z (fst (FF sn GetTransitTime d1))) u_ms),
     {| self := self r; device := snd (FF sn GetTransitTime d1);
        trace := trace r ++ [Native sn (SetTransitTime x);
                             Native sn GetTransitTime] |})).
  { rewrite (bind_Return _ _ _ _ _ E1). unfold get_transit_time.
    rewrite (bind_Return _ _ _ _ _ (nice_eq _ _)).
    unfold ret. simpl. now rewrite <- !app_assoc. }
  split; [exact E1 | split; [exact E2 |]].
  intros n Hx Hn. rewrite E2. simpl. subst d1. rewrite Hx, Hn. reflexivity.
Qed.

End Properties.

(** * The driver on the simulated flipper *)

(** The simulated flipper reports back a whole number of milliseconds as
    it was given. *)
Lemma sim_keeps_whole_ms sn (d : flipper_sim) n :
  fst (FF sn GetTransitTime (snd (FF sn (SetTransitTime (inject_Z n)) d)))
  = (if bool_decide (sn ∈ attached d) then n else 2).
Proof.
  simpl. unfold sim_FF.
  destruct (bool_decide (sn ∈ attached d)) eqn:E; simpl; rewrite E;
    [apply Qfloor_Z | reflexivity].
Qed.

(** For every [n] there is a device that reports the target first at
    query [n]: the polling loop has no bound of its own. *)
Lemma sim_arrives_at_any n :
  arrives_at "37000001" two default_delay n
    (sim_elapse (1 # 2)
       (sim_start_move 2 (sim_device 1 (S n)))) = true.
Proof.
  assert (G : forall k x g,
    arrives_at "37000001" two default_delay k
      (sim_elapse x
         {| attached := ["37000001"]; reported := 0; goal := 2;
            countdown := S k; lag := g; transit := 500;
            polling := Some 200%Q |})
    = true).
  { induction k as [|k IH]; intros x g; [reflexivity |].
    exact (IH (magnitude (to u_s default_delay)) g). }
  exact (G n (1 # 2)%Q (S n)).
Qed.

(** C9 (the code at a period that is not a whole number of
    milliseconds): a polling period of 200.75 ms is handed to the native
    [StartPolling] as 200.75, unrounded, whatever the device; cut to the
    native integer it is 200, and the simulated flipper, started by
    [_start_polling] or by the constructor, polls every 200 ms, where the
    nearest whole millisecond is 201. *)
Theorem start_polling_not_rounded :
  (forall (D : Type) (K : Kinesis D) (r : runtime D),
     _start_polling (Q_ (803 # 4) u_ms) r =
     (Return (fst (FF (serial (self r)) (StartPolling (803 # 4)) (device r))),
      {| self := {| serial := serial (self r);
                    polling_period := Some (803 # 4)%Q |};
         device := snd (FF (serial (self r)) (StartPolling (803 # 4))
                          (device r));
         trace := trace r ++
           [Native (serial (self r)) (StartPolling (803 # 4))] |})) /\
  nearest (magnitude (to u_ms (Q_ (803 # 4) u_ms))) = 201 /\
  Qfloor (magnitude (to u_ms (Q_ (803 # 4) u_ms))) = 200 /\
  polling (device (snd (_start_polling (Q_ (803 # 4) u_ms)
                          (sim_runtime 1 3))))
    = Some (inject_Z 200) /\
  polling (device (snd (__init__ "37000001" (Q_ (803 # 4) u_ms)
                          (boot (sim_device 1 3)))))
    = Some (inject_Z 200) /\
  polling (device (snd (__init__ "37000001" (Q_ (803 # 4) u_ms)
                          (boot (sim_device 1 3)))))
    <> Some (inject_Z (nearest (magnitude (to u_ms (Q_ (803 # 4) u_ms))))).
Proof.
  split; [| repeat split].
  - intros D K r. apply (start_polling_eq r (Q_ (803 # 4) u_ms)).
  - vm_compute. discriminate.
Qed.

(** Witness of C1: a move that takes three sleeps is seen at the third
    query of the loop. *)
Lemma move_and_wait_polls_witness :
  fst (move_and_wait 5 two default_delay (sim_runtime 1 3)) = Return tt.
Proof.
  destruct (move_and_wait_polls_until_arrival (K := sim_Kinesis)
              (sim_runtime 1 3) two default_delay one) as [A _];
    [reflexivity | reflexivity | discriminate
    | vm_compute; discriminate | vm_compute; discriminate |].
  destruct (A 2%nat 5%nat) as [E _]; [reflexivity | lia |].
  rewrite E. reflexivity.
Defined.

(** Witness of C2: the three cases of [flip]. *)
Lemma flip_witness :
  fst (flip (sim_runtime 1 3)) = Return 0 /\
  fst (flip (sim_runtime 2 3)) = Return 0 /\
  fst (flip (sim_runtime 0 3)) =
    Raise (Exception
      "Could not flip because the current position is not valid").
Proof.
  split; [| split].
  - destruct (flip_spec (K := sim_Kinesis) (sim_runtime 1 3)) as (H & _ & _).
    rewrite H by reflexivity. reflexivity.
  - destruct (flip_spec (K := sim_Kinesis) (sim_runtime 2 3)) as (_ & H & _).
    rewrite H by reflexivity. reflexivity.
  - destruct (flip_spec (K := sim_Kinesis) (sim_runtime 0 3)) as (_ & _ & H).
    rewrite H by reflexivity. reflexivity.
Defined.

(** Witness of C4: a flipper resting at two, asked to move to two. *)
Lemma move_and_wait_already_there_witness :
  trace (snd (move_and_wait 0 two default_delay (sim_runtime 2 3)))
  = [Native "37000001" GetPosition].
Proof.
  destruct (move_and_wait_already_there (K := sim_Kinesis)
              (sim_runtime 2 3) two 0%nat default_delay)
    as (E & _ & _); [reflexivity | reflexivity |].
  rewrite E. reflexivity.
Defined.

(** Witness of C5: half a second is 500 ms, and comes back as 500 ms. *)
Lemma transit_time_round_trip_witness :
  fst ((set_transit_time (Q_ (1 # 2) u_s) ;; get_transit_time)
         (sim_runtime 1 3))
  = Return (Q_ 500 u_ms).
Proof.
  destruct (transit_time_round_trip (K := sim_Kinesis)
              (sim_runtime 1 3) (Q_ (1 # 2) u_s)) as (_ & _ & H).
  apply (H 500); reflexivity.
Defined.

(** C5 as stated fails: 500.75 ms is set and 500 ms, not the nearest
    whole millisecond 501 ms, comes back. *)
Lemma transit_time_rounding_counterexample :
  fst ((set_transit_time (Q_ (2003 # 4) u_ms) ;; get_transit_time)
         (sim_runtime 1 3))
  <> Return (Q_ (inject_Z (nearest (magnitude
                                     (to u_ms (Q_ (2003 # 4) u_ms))))) u_ms).
Proof. vm_compute. discriminate. Qed.

(** C6 as stated fails: after construction, a flip and [close], the
    trace holds one [Close] and no [StopPolling]. *)
Lemma close_stop_polling_counterexample :
  ~ (count_native is_StopPolling
       (trace (snd ((__init__ "37000001" default_polling_period ;;
                     flip ;; close) (boot (sim_device 1 3))))) = 1%nat /\
     count_native is_Close
       (trace (snd ((__init__ "37000001" default_polling_period ;;
                     flip ;; close) (boot (sim_device 1 3))))) = 1%nat).
Proof. vm_compute. intros [H _]. discriminate H. Qed.

(** C7 as stated fails: with no flipper connected, constructing with
    serial number 37000001 returns normally and has called the native
    [Open]. *)
Lemma unknown_serial_counterexample :
  ("37000001" ∉ attached sim_nothing) /\
  ~ ((exists e, fst (__init__ "37000001" default_polling_period
                       (boot sim_nothing)) = Raise e) /\
     count_native is_Open
       (trace (snd (__init__ "37000001" default_polling_period
                      (boot sim_nothing)))) = 0%nat).
Proof.
  split.
  - simpl. apply not_elem_of_nil.
  - vm_compute. intros [_ H]. discriminate H.
Qed.

(** * Further properties of the driver *)

Local Open Scope list_scope.

Section Frame.

Context {D : Type} {K : Kinesis D}.
Implicit Types (r : runtime D) (p t : Position) (delay : Quantity).

(** ** The enumeration and its native codes *)

(** X1: [Position(p.value)] is [p]; a code that decodes to a position is the
    value of that position, and the codes that do not decode are those
    other than 0, 1 and 2. *)
Theorem Position_value_round_trip :
  (forall p, Position_of_value (value p) = Some p) /\
  (forall code,
     match Position_of_value code with
     | Some p => value p = code
     | None => code <> 0 /\ code <> 1 /\ code <> 2
     end).
Proof.
  split; [intros []; reflexivity |].
  intros code. unfold Position_of_value.
  destruct (Z.eqb_spec code 1); [now subst |].
  destruct (Z.eqb_spec code 2); [now subst |].
  destruct (Z.eqb_spec code 0); [now subst |].
  now repeat split.
Qed.

(** ** A device that reports an unknown code *)

(** X2: When the device reports a code that is no member of [Position],
    [flip] and [move_and_wait] (whatever the target) raise the
    [ValueError] of the enumeration lookup after that one query: [flip]
    does not reach its own [Exception], and no move is issued. *)
Theorem unknown_code_stops r t fuel delay :
  let sn := serial (self r) in
  let code := fst (FF sn GetPosition (device r)) in
  let r1 := {| self := self r; device := snd (FF sn GetPosition (device r));
               trace := trace r ++ [Native sn GetPosition] |} in
  Position_of_value code = None ->
  flip r =
    (Raise (ValueError (pretty code +:+ " is not a valid Position")), r1) /\
  move_and_wait fuel t delay r =
    (Raise (ValueError (pretty code +:+ " is not a valid Position")), r1).
Proof.
  intros sn code r1 E. split.
  - unfold flip. now rewrite (bind_Raise _ _ _ _ _ (get_position_None r E)).
  - unfold move_and_wait.
    now rewrite (bind_Raise _ _ _ _ _ (get_position_None r E)).
Qed.

(** ** What the methods append to the trace *)

Lemma emits_ret {A} P (a : A) : emits (D := D) P (ret a).
Proof. intros r. split; [reflexivity |]. exists []. now rewrite app_nil_r. Qed.

Lemma emits_raise {A} P e : emits (D := D) (A := A) P (raise e).
Proof. intros r. split; [reflexivity |]. exists []. now rewrite app_nil_r. Qed.

Lemma emits_diverge {A} P : emits (D := D) (A := A) P diverge.
Proof. intros r. split; [reflexivity |]. exists []. now rewrite app_nil_r. Qed.

Lemma emits_bind {A B} P (m : Py D A) (k : A -> Py D B) :
  emits P m -> (forall a, emits P (k a)) -> emits P (bind m k).
Proof.
  intros Hm Hk r. unfold bind.
  destruct (Hm r) as (Hs & ev & Ht & Hf).
  destruct (m r) as [[a|e|] r1]; simpl in *;
    try (split; [exact Hs | exists ev; now split]).
  destruct (Hk a r1) as (Hs2 & ev2 & Ht2 & Hf2).
  split; [congruence |].
  exists (ev ++ ev2). rewrite Ht2, Ht, app_assoc. split; [reflexivity |].
  apply Forall_app. split; [exact Hf |]. now rewrite Hs in Hf2.
Qed.

Lemma emits_weaken {A} (P Q : string -> event -> Prop) (m : Py D A) :
  (forall sn e, P sn e -> Q sn e) -> emits P m -> emits Q m.
Proof.
  intros HPQ Hm r. destruct (Hm r) as (Hs & ev & Ht & Hf).
  split; [exact Hs |]. exists ev. split; [exact Ht |].
  eapply Forall_impl; [exact Hf | apply HPQ].
Qed.

Lemma emits_nice P f :
  (forall sn, P sn (Native sn f)) -> emits P (nice f).
Proof.
  intros HP r. rewrite nice_eq. simpl. split; [reflexivity |].
  exists [Native (serial (self r)) f]. split; [reflexivity |].
  constructor; [apply HP | constructor].
Qed.

Lemma emits_sleep P secs :
  (forall sn, P sn (Sleep secs)) -> emits P (sleep secs).
Proof.
  intros HP r. unfold sleep. destruct (Qle_bool 0 secs); simpl.
  - split; [reflexivity |]. exists [Sleep secs]. split; [reflexivity |].
    constructor; [apply HP | constructor].
  - split; [reflexivity |]. exists []. now rewrite app_nil_r.
Qed.

Lemma own_stable_query sn f :
  is_MoveToPosition f = false -> own_stable sn (Native sn f).
Proof. intros H. split; [reflexivity |]. now destruct f. Qed.

Lemma own_stable_sleep sn secs : own_stable sn (Sleep secs).
Proof. now split. Qed.

Lemma emits_get_position : emits own_stable get_position.
Proof.
  apply emits_bind; [apply emits_nice; intros; now apply own_stable_query |].
  intros code. destruct (Position_of_value code);
    [apply emits_ret | apply emits_raise].
Qed.

Lemma emits_move_to p : emits own_stable (move_to p).
Proof.
  unfold move_to. destruct p; simpl;
    first [apply emits_raise | apply emits_nice; intros sn; split; simpl; auto].
Qed.

Lemma emits_flip : emits own_stable flip.
Proof.
  apply emits_bind; [apply emits_get_position |].
  intros []; simpl; first [apply emits_move_to | apply emits_raise].
Qed.

Lemma emits_get_transit_time : emits own_stable get_transit_time.
Proof.
  apply emits_bind; [apply emits_nice; intros; now apply own_stable_query |].
  intros. apply emits_ret.
Qed.

Lemma emits_set_transit_time (q : Quantity) :
  emits own_stable (set_transit_time q).
Proof.
  apply emits_bind; [apply emits_nice; intros; now apply own_stable_query |].
  intros. apply emits_ret.
Qed.

Lemma emits_wait_loop fuel t delay : emits own_stable (wait_loop fuel t delay).
Proof.
  induction fuel as [|fuel IH]; simpl; [apply emits_diverge |].
  apply emits_bind; [apply emits_get_position |].
  intros p. destruct (negb (Position_eqb p t)); [| apply emits_ret].
  apply emits_bind; [apply emits_sleep; intros; apply own_stable_sleep |].
  intros _. exact IH.
Qed.

Lemma emits_move_and_wait fuel t delay :
  emits own_stable (move_and_wait fuel t delay).
Proof.
  apply emits_bind; [apply emits_get_position |].
  intros p. destruct (negb (isValidPosition t)); [apply emits_raise |].
  destruct (negb (Position_eqb p t)); [| apply emits_ret].
  apply emits_bind; [apply emits_get_transit_time |]. intros q.
  apply emits_bind; [apply emits_move_to |]. intros _.
  apply emits_bind; [apply emits_sleep; intros; apply own_stable_sleep |].
  intros _. apply emits_wait_loop.
Qed.

(** X3: Whatever the device does and however they end, [move_to], [flip] and
    [move_and_wait] command moves to position code 1 or 2 only: the code
    0 of [moving] never reaches the native [MoveToPosition]. *)
Theorem moves_go_to_one_or_two p fuel delay :
  emits (D := D) (fun _ => commands_stable) (move_to p) /\
  emits (D := D) (fun _ => commands_stable) flip /\
  emits (D := D) (fun _ => commands_stable) (move_and_wait fuel p delay).
Proof.
  repeat apply conj;
    (apply (emits_weaken own_stable); [intros sn e H; exact (proj2 H) |]);
    [apply emits_move_to | apply emits_flip | apply emits_move_and_wait].
Qed.

(** X4: Whatever the device does and however they end, the methods of a
    constructed flipper leave [self.serial] and [self.polling_period] as
    they are, keep the events already in the trace, and send every native
    call to the serial number the flipper was constructed with. *)
Theorem methods_keep_self_and_serial p fuel delay (q : Quantity) :
  emits (D := D) addressed_to close /\
  emits (D := D) addressed_to home /\
  emits (D := D) addressed_to get_position /\
  emits (D := D) addressed_to (move_to p) /\
  emits (D := D) addressed_to flip /\
  emits (D := D) addressed_to (move_and_wait fuel p delay) /\
  emits (D := D) addressed_to get_transit_time /\
  emits (D := D) addressed_to (set_transit_time q).
Proof.
  repeat apply conj;
    (apply (emits_weaken own_stable); [intros sn e H; exact (proj1 H) |]);
    [ apply emits_nice; intros; now apply own_stable_query
    | apply emits_nice; intros; now apply own_stable_query
    | apply emits_get_position | apply emits_move_to | apply emits_flip
    | apply emits_move_and_wait | apply emits_get_transit_time
    | apply emits_set_transit_time ].
Qed.

End Frame.

Section Blocking.

Context {D : Type} {K : Kinesis D}.
Implicit Types (r : runtime D) (p t : Position) (delay : Quantity).

(** ** The ways through [move_and_wait] *)

Lemma sleep_negative secs r :
  Qle_bool 0 secs = false ->
  sleep secs r =
  (Raise (ValueError "sleep length must be non-negative"), r).
Proof. intros H. unfold sleep. now rewrite H. Qed.

Lemma move_and_wait_unfold r t delay fuel :
  let sn := serial (self r) in
  let code := fst (FF sn GetPosition (device r)) in
  let d1 := snd (FF sn GetPosition (device r)) in
  let r1 := {| self := self r; device := d1;
               trace := trace r ++ [Native sn GetPosition] |} in
  let transit := fst (FF sn GetTransitTime d1) in
  let d2 := snd (FF sn GetTransitTime d1) in
  let d3 := snd (FF sn (MoveToPosition (value t)) d2) in
  let wait := magnitude (to u_s (Q_ (inject_Z transit) u_ms)) in
  move_and_wait fuel t delay r =
  match Position_of_value code with
  | None =>
      (Raise (ValueError (pretty code +:+ " is not a valid Position")), r1)
  | Some p0 =>
      if negb (isValidPosition t) then
        (Raise (ValueError "Not a valid position"), r1)
      else if negb (Position_eqb p0 t) then
        if Qle_bool 0 wait then
          wait_loop fuel t delay
            {| self := self r; device := elapse wait d3;
               trace := trace r ++
                 [Native sn GetPosition; Native sn GetTransitTime;
                  Native sn (MoveToPosition (value t)); Sleep wait] |}
        else
          (Raise (ValueError "sleep length must be non-negative"),
           {| self := self r; device := d3;
              trace := trace r ++
                [Native sn GetPosition; Native sn GetTransitTime;
                 Native sn (MoveToPosition (value t))] |})
      else (Return tt, r1)
  end.
Proof.
  intros sn code d1 r1 transit d2 d3 wait. unfold move_and_wait.
  destruct (Position_of_value code) as [p0|] eqn:E.
  - rewrite (bind_Return _ _ _ _ _ (get_position_Some r p0 E)).
    destruct (isValidPosition t) eqn:Hv; simpl; [| reflexivity].
    destruct (Position_eqb p0 t); simpl; [reflexivity |].
    unfold get_transit_time.
    rewrite (bind_Return _ _ _ _ _
      (bind_Return _ _ _ _ _ (nice_eq GetTransitTime _))).
    unfold move_to. rewrite Hv. simpl.
    rewrite (bind_Return _ _ _ _ _ (nice_eq _ _)). simpl.
    destruct (Qle_bool 0 wait) eqn:Hw.
    + rewrite (bind_Return _ _ _ _ _ (sleep_eq _ _ Hw)). simpl.
      now rewrite <- !app_assoc.
    + rewrite (bind_Raise _ _ _ _ _ (sleep_negative _ _ Hw)). simpl.
      now rewrite <- !app_assoc.
  - now rewrite (bind_Raise _ _ _ _ _ (get_position_None r E)).
Qed.

(** The way into the loop. *)
Lemma move_and_wait_enters_loop r t delay p0 fuel :
  isValidPosition t = true ->
  Position_of_value (fst (FF (serial (self r)) GetPosition (device r)))
    = Some p0 ->
  p0 <> t ->
  0 <= fst (FF (serial (self r)) GetTransitTime
              (snd (FF (serial (self r)) GetPosition (device r)))) ->
  move_and_wait fuel t delay r =
  wait_loop fuel t delay
    {| self := self r;
       device :=
         elapse
           (magnitude (to u_s (Q_ (inject_Z
              (fst (FF (serial (self r)) GetTransitTime
                      (snd (FF (serial (self r)) GetPosition (device r))))))
              u_ms)))
           (snd (FF (serial (self r)) (MoveToPosition (value t))
                   (snd (FF (serial (self r)) GetTransitTime
                           (snd (FF (serial (self r)) GetPosition
                                   (device r)))))));
       trace := trace r ++
         [Native (serial (self r)) GetPosition;
          Native (serial (self r)) GetTransitTime;
          Native (serial (self r)) (MoveToPosition (value t));
          Sleep (magnitude (to u_s (Q_ (inject_Z
              (fst (FF (serial (self r)) GetTransitTime
                      (snd (FF (serial (self r)) GetPosition (device r))))))
              u_ms)))] |}.
Proof.
  intros Hv Hp Hne Htr.
  pose proof (move_and_wait_unfold r t delay fuel) as U. cbv zeta in U.
  rewrite Hp, Hv in U. rewrite (proj2 (Position_eqb_neq p0 t) Hne) in U.
  rewrite to_nonneg in U; [exact U |].
  simpl. unfold Qle. simpl. lia.
Qed.

(** The loop returns right after a query that reported the target. *)
Lemma wait_loop_post t delay fuel :
  forall r,
    fst (wait_loop fuel t delay r) = Return tt ->
    exists (d : D) (tr : list event),
      device (snd (wait_loop fuel t delay r))
        = snd (FF (serial (self r)) GetPosition d) /\
      fst (FF (serial (self r)) GetPosition d) = value t /\
      trace (snd (wait_loop fuel t delay r))
        = tr ++ [Native (serial (self r)) GetPosition].
Proof.
  induction fuel as [|fuel IH]; intros r; [discriminate |].
  simpl wait_loop.
  destruct (Position_of_value
              (fst (FF (serial (self r)) GetPosition (device r))))
    as [p|] eqn:E.
  - rewrite (bind_Return _ _ _ _ _ (get_position_Some r p E)).
    destruct (Position_eqb p t) eqn:Hp; simpl.
    + intros _. exists (device r), (trace r). repeat split.
      apply Position_eqb_eq in Hp. subst p.
      now apply Position_of_value_Some.
    + destruct (Qle_bool 0 (magnitude (to u_s delay))) eqn:Hs.
      * rewrite (bind_Return _ _ _ _ _ (sleep_eq _ _ Hs)).
        intros H. apply IH in H. exact H.
      * rewrite (bind_Raise _ _ _ _ _ (sleep_negative _ _ Hs)).
        discriminate.
  - rewrite (bind_Raise _ _ _ _ _ (get_position_None r E)). discriminate.
Qed.

(** X5: When [move_and_wait] returns, the target was a position to move to
    and the last thing done was a position query that reported it: the
    device is as that query left it. *)
Theorem move_and_wait_returns_at_target r t delay fuel :
  fst (move_and_wait fuel t delay r) = Return tt ->
  isValidPosition t = true /\
  exists (d : D) (tr : list event),
    device (snd (move_and_wait fuel t delay r))
      = snd (FF (serial (self r)) GetPosition d) /\
    fst (FF (serial (self r)) GetPosition d) = value t /\
    trace (snd (move_and_wait fuel t delay r))
      = tr ++ [Native (serial (self r)) GetPosition].
Proof.
  rewrite move_and_wait_unfold.
  destruct (Position_of_value _) as [p0|] eqn:E; [| discriminate].
  destruct (isValidPosition t); simpl; [| discriminate].
  destruct (Position_eqb p0 t) eqn:Hp; simpl.
  - intros _. split; [reflexivity |].
    exists (device r), (trace r). repeat split.
    apply Position_eqb_eq in Hp. subst p0.
    now apply Position_of_value_Some.
  - destruct (Qle_bool 0 _); [| discriminate].
    intros H. split; [reflexivity |].
    apply wait_loop_post in H. exact H.
Qed.

(** ** A device that has not arrived yet *)

(** [n] rounds of the loop on a device that does not report the target. *)
Lemma wait_loop_advance t delay n :
  forall fuel r,
    Qle_bool 0 (magnitude (to u_s delay)) = true ->
    waits_through (serial (self r)) t delay n (device r) = true ->
    wait_loop (n + fuel) t delay r =
    wait_loop fuel t delay
      {| self := self r;
         device := poll_device (serial (self r)) delay n (device r);
         trace := trace r ++ wait_trace (serial (self r)) delay n |}.
Proof.
  induction n as [|n IH]; intros fuel r Hs Hw.
  - simpl. rewrite app_nil_r. now destruct r.
  - simpl in Hw. simpl wait_loop.
    destruct (Position_of_value
                (fst (FF (serial (self r)) GetPosition (device r))))
      as [p|] eqn:E; [| discriminate].
    apply andb_prop in Hw as [Hne Hw].
    rewrite (bind_Return _ _ _ _ _ (get_position_Some r p E)).
    rewrite Hne.
    rewrite (bind_Return _ _ _ _ _ (sleep_eq _ _ Hs)).
    rewrite IH; [| exact Hs | exact Hw].
    simpl. now rewrite <- !app_assoc.
Qed.

(** X7: As long as the device reports positions other than the target the
    loop goes on: after [fuel] queries, each followed by a sleep of
    [delay], [move_and_wait] has neither returned nor raised.  There is
    no timeout. *)
Theorem move_and_wait_keeps_polling r t delay p0 fuel :
  let sn := serial (self r) in
  let d1 := snd (FF sn GetPosition (device r)) in
  let transit := fst (FF sn GetTransitTime d1) in
  let d2 := snd (FF sn GetTransitTime d1) in
  let d3 := snd (FF sn (MoveToPosition (value t)) d2) in
  let wait := magnitude (to u_s (Q_ (inject_Z transit) u_ms)) in
  let d4 := elapse wait d3 in
  isValidPosition t = true ->
  Position_of_value (fst (FF sn GetPosition (device r))) = Some p0 ->
  p0 <> t ->
  0 <= transit ->
  (0 <= magnitude delay)%Q ->
  waits_through sn t delay fuel d4 = true ->
  move_and_wait fuel t delay r =
  (Pending,
   {| self := self r; device := poll_device sn delay fuel d4;
      trace := trace r ++
        [Native sn GetPosition; Native sn GetTransitTime;
         Native sn (MoveToPosition (value t)); Sleep wait]
        ++ wait_trace sn delay fuel |}).
Proof.
  intros sn d1 transit d2 d3 wait d4.
  subst sn d1 transit d2 d3 wait d4. intros Hv Hp Hne Htr Hd Hw.
  rewrite (move_and_wait_enters_loop r t delay p0 fuel Hv Hp Hne Htr).
  rewrite <- (Nat.add_0_r fuel) at 1.
  rewrite wait_loop_advance; [| apply to_nonneg, Hd | exact Hw].
  simpl. unfold diverge. now rewrite <- !app_assoc.
Qed.

(** X8: When, after [n] queries that reported other positions, the device
    reports a code that is no member of [Position], [move_and_wait]
    raises the [ValueError] of the enumeration lookup; the move has been
    commanded by then. *)
Theorem move_and_wait_unknown_code_while_polling r t delay p0 n fuel :
  let sn := serial (self r) in
  let d1 := snd (FF sn GetPosition (device r)) in
  let transit := fst (FF sn GetTransitTime d1) in
  let d2 := snd (FF sn GetTransitTime d1) in
  let d3 := snd (FF sn (MoveToPosition (value t)) d2) in
  let wait := magnitude (to u_s (Q_ (inject_Z transit) u_ms)) in
  let d4 := elapse wait d3 in
  isValidPosition t = true ->
  Position_of_value (fst (FF sn GetPosition (device r))) = Some p0 ->
  p0 <> t ->
  0 <= transit ->
  (0 <= magnitude delay)%Q ->
  waits_through sn t delay n d4 = true ->
  Position_of_value (poll_report sn delay n d4) = None ->
  (n < fuel)%nat ->
  move_and_wait fuel t delay r =
  (Raise (ValueError (pretty (poll_report sn delay n d4)
                      +:+ " is not a valid Position")),
   {| self := self r;
      device := snd (FF sn GetPosition (poll_device sn delay n d4));
      trace := trace r ++
        [Native sn GetPosition; Native sn GetTransitTime;
         Native sn (MoveToPosition (value t)); Sleep wait]
        ++ wait_trace sn delay n ++ [Native sn GetPosition] |}).
Proof.
  intros sn d1 transit d2 d3 wait d4.
  subst sn d1 transit d2 d3 wait d4. intros Hv Hp Hne Htr Hd Hw Hbad Hf.
  rewrite (move_and_wait_enters_loop r t delay p0 fuel Hv Hp Hne Htr).
  replace fuel with (n + S (fuel - S n))%nat by lia.
  rewrite wait_loop_advance; [| apply to_nonneg, Hd | exact Hw].
  simpl wait_loop. unfold poll_report in *.
  erewrite bind_Raise by (apply get_position_None; exact Hbad).
  simpl. now rewrite <- !app_assoc.
Qed.

End Blocking.

Section Timing.

Context {D : Type} {K : Kinesis D}.
Implicit Types (r : runtime D) (p t : Position) (delay : Quantity).

(** ** Time spent sleeping *)

Lemma slept_app (a b : list event) : (slept (a ++ b) == slept a + slept b)%Q.
Proof.
  induction a as [|[s f|q] a IH]; simpl.
  - now rewrite Qplus_0_l.
  - exact IH.
  - rewrite IH. now rewrite Qplus_assoc.
Qed.

Lemma slept_poll_trace sn delay n :
  (slept (poll_trace sn delay n)
   == inject_Z (Z.of_nat n) * magnitude (to u_s delay))%Q.
Proof.
  induction n as [|n IH].
  - simpl. now rewrite Qmult_0_l.
  - change (slept (poll_trace sn delay (S n)))
      with (magnitude (to u_s delay) + slept (poll_trace sn delay n))%Q.
    rewrite IH, Nat2Z.inj_succ. unfold Z.succ. rewrite inject_Z_plus. ring.
Qed.

Lemma delay_in_seconds delay :
  (magnitude (to u_s delay) == magnitude delay * seconds_per (units delay))%Q.
Proof.
  unfold to. simpl magnitude. rewrite Qred_correct.
  change (seconds_per u_s) with 1%Q. field.
Qed.

(** X6: A [move_and_wait] that finds the target at query [n] of its loop has
    slept the transit time the device reported and [n] times the delay:
    [transit / 1000 + n * delay] seconds in all. *)
Theorem move_and_wait_time_slept r t delay p0 n fuel :
  let sn := serial (self r) in
  let d1 := snd (FF sn GetPosition (device r)) in
  let transit := fst (FF sn GetTransitTime d1) in
  let d2 := snd (FF sn GetTransitTime d1) in
  let d3 := snd (FF sn (MoveToPosition (value t)) d2) in
  let wait := magnitude (to u_s (Q_ (inject_Z transit) u_ms)) in
  let d4 := elapse wait d3 in
  isValidPosition t = true ->
  Position_of_value (fst (FF sn GetPosition (device r))) = Some p0 ->
  p0 <> t ->
  0 <= transit ->
  (0 <= magnitude delay)%Q ->
  arrives_at sn t delay n d4 = true ->
  (n < fuel)%nat ->
  (slept (trace (snd (move_and_wait fuel t delay r)))
   == slept (trace r) + inject_Z transit / 1000
      + inject_Z (Z.of_nat n) * (magnitude delay * seconds_per (units delay)))%Q.
Proof.
  intros sn d1 transit d2 d3 wait d4.
  subst sn d1 transit d2 d3 wait d4. intros Hv Hp Hne Htr Hd Ha Hf.
  rewrite (move_and_wait_enters_loop r t delay p0 fuel Hv Hp Hne Htr).
  rewrite wait_loop_arrives with (n := n);
    [| apply to_nonneg, Hd | exact Ha | exact Hf].
  cbn [trace snd]. rewrite !slept_app. cbn [slept].
  rewrite slept_poll_trace, ms_in_seconds, delay_in_seconds. ring.
Qed.

End Timing.

(** * The user configuration *)

Lemma foldl_insert_lookup {V} (f : string -> V) (l : list string)
  (acc : gmap string V) (k : string) :
  foldl (fun m x => <[x := f x]> m) acc l !! k =
  if bool_decide (k ∈ l) then Some (f k) else acc !! k.
Proof.
  revert acc. induction l as [|x l IH]; intros acc; cbn [foldl].
  - rewrite bool_decide_eq_false_2; [reflexivity | apply not_elem_of_nil].
  - rewrite IH. destruct (decide (k ∈ l)) as [Hin|Hin].
    + rewrite !bool_decide_eq_true_2; [reflexivity | | exact Hin].
      apply elem_of_cons. now right.
    + rewrite (bool_decide_eq_false_2 _ Hin).
      destruct (decide (k = x)) as [->|Hne].
      * rewrite lookup_insert_eq.
        rewrite bool_decide_eq_true_2; [reflexivity |].
        apply elem_of_cons. now left.
      * rewrite lookup_insert_ne by congruence.
        rewrite bool_decide_eq_false_2; [reflexivity |].
        now apply not_elem_of_cons.
Qed.

(** X10: Every section the parser lists is in [settings] with the options the
    parser gives for it, and nothing else is. *)
Theorem read_settings_lookup (parser : RawConfigParser) (section_str : string) :
  read_settings parser !! section_str =
  if bool_decide (section_str ∈ sections parser)
  then Some (read_section (items parser section_str))
  else None.
Proof.
  unfold read_settings.
  rewrite (foldl_insert_lookup
             (fun x => read_section (items parser x)) (sections parser) ∅).
  now rewrite lookup_empty.
Qed.

Lemma read_section_acc (kvs : list (string * string))
  (acc : gmap string string) (k : string) :
  k ∉ kvs.*1 ->
  foldl (fun section kv => <[kv.1 := kv.2]> section) acc kvs !! k = acc !! k.
Proof.
  revert acc. induction kvs as [|[k' v'] kvs IH]; intros acc Hk; simpl;
    [reflexivity |].
  rewrite fmap_cons, not_elem_of_cons in Hk. destruct Hk as [Hne Hk].
  rewrite IH by exact Hk. simpl in Hne. now rewrite lookup_insert_ne.
Qed.

(** X11: An option that is not among the items is not in the section, and of
    several items with the same option the last one stays. *)
Theorem read_section_lookup (kvs : list (string * string)) (k : string) :
  (k ∉ kvs.*1 -> read_section kvs !! k = None) /\
  (forall front v rest,
     kvs = front ++ (k, v) :: rest -> k ∉ rest.*1 ->
     read_section kvs !! k = Some v).
Proof.
  split.
  - intros Hk. unfold read_section. now rewrite read_section_acc.
  - intros front v rest -> Hk. unfold read_section.
    rewrite foldl_app. simpl. rewrite read_section_acc by exact Hk.
    apply lookup_insert_eq.
Qed.

(** X12: When ['prefs']['default_server'] names an entry of ['servers'], it is
    replaced by that entry, once: the entry is not looked up again. *)
Theorem default_server_resolved
  (settings : gmap string (gmap string string))
  (prefs servers : gmap string string) (name address : string) :
  settings !! "prefs" = Some prefs ->
  prefs !! "default_server" = Some name ->
  settings !! "servers" = Some servers ->
  servers !! name = Some address ->
  resolve_default_server settings
    = <["prefs" := <["default_server" := address]> prefs]> settings /\
  (resolve_default_server settings !! "prefs"
     ≫= fun section => section !! "default_server") = Some address /\
  resolve_default_server settings !! "servers" = Some servers.
Proof.
  intros Hp Hn Hs Ha.
  assert (E : resolve_default_server settings
    = <["prefs" := <["default_server" := address]> prefs]> settings).
  { unfold resolve_default_server, default_server_alias.
    rewrite Hp. simpl. rewrite Hn. simpl. rewrite Hs. simpl.
    rewrite bool_decide_eq_true_2 by (apply elem_of_dom; eauto).
    now rewrite Ha. }
  rewrite E. split; [reflexivity | split].
  - rewrite lookup_insert_eq. simpl. apply lookup_insert_eq.
  - now rewrite lookup_insert_ne.
Qed.

(** X13: Without a ['prefs'] section, a ['default_server'] option or a
    ['servers'] section, or when the default server is not the name of an
    entry of ['servers'], the settings stay as they were read. *)
Theorem default_server_kept (settings : gmap string (gmap string string)) :
  (settings !! "prefs" ≫= fun section => section !! "default_server") = None
  \/ settings !! "servers" = None
  \/ (exists prefs servers name,
        settings !! "prefs" = Some prefs /\
        prefs !! "default_server" = Some name /\
        settings !! "servers" = Some servers /\
        servers !! name = None) ->
  resolve_default_server settings = settings.
Proof.
  unfold resolve_default_server, default_server_alias.
  intros [H | [H | (prefs & servers & name & Hp & Hn & Hs & Ha)]].
  - destruct (settings !! "prefs") as [prefs|]; [| reflexivity].
    simpl in *. now rewrite H.
  - destruct (settings !! "prefs") as [prefs|]; [| reflexivity]. simpl.
    destruct (prefs !! "default_server"); [| reflexivity]. simpl.
    now rewrite H.
  - rewrite Hp. simpl. rewrite Hn. simpl. rewrite Hs. simpl.
    rewrite bool_decide_eq_false_2; [reflexivity |].
    rewrite elem_of_dom, Ha. now intros [? ?].
Qed.

(** X14: Resolving the default server touches nothing but
    ['prefs']['default_server']: the sections are the same, and every
    other option of every section reads as before. *)
Theorem default_server_frame
  (settings : gmap string (gmap string string)) (sec key : string) :
  (dom (resolve_default_server settings) : gset string) = dom settings /\
  ((sec, key) <> ("prefs", "default_server") ->
   (resolve_default_server settings !! sec ≫= fun section => section !! key)
   = (settings !! sec ≫= fun section => section !! key)).
Proof.
  unfold resolve_default_server, default_server_alias.
  destruct (settings !! "prefs") as [prefs|] eqn:Hp; [| now split]. simpl.
  destruct (prefs !! "default_server") as [name|] eqn:Hn; [| now split]. simpl.
  destruct (settings !! "servers") as [servers|] eqn:Hs; [| now split]. simpl.
  case_bool_decide; [| now split].
  destruct (servers !! name) as [address|] eqn:Ha; [| now split]. simpl.
  split.
  - rewrite dom_insert_L.
    apply subseteq_union_1_L, singleton_subseteq_l, elem_of_dom. eauto.
  - intros Hne. destruct (decide (sec = "prefs")) as [->|Hsec].
    + rewrite lookup_insert_eq, Hp. simpl.
      apply lookup_insert_ne. congruence.
    + now rewrite lookup_insert_ne.
Qed.

(** * The further properties on concrete inputs *)

Lemma unknown_code_stops_witness :
  fst (flip (sim_runtime 7 3))
  = Raise (ValueError "7 is not a valid Position").
Proof.
  destruct (unknown_code_stops (K := sim_Kinesis)
              (sim_runtime 7 3) two 5%nat default_delay) as [E _];
    [reflexivity |].
  rewrite E. reflexivity.
Defined.

Lemma move_and_wait_returns_at_target_witness :
  isValidPosition two = true /\
  exists (d : flipper_sim) (tr : list event),
    device (snd (move_and_wait 5 two default_delay (sim_runtime 1 3)))
      = snd (FF "37000001" GetPosition d) /\
    fst (FF "37000001" GetPosition d) = 2 /\
    trace (snd (move_and_wait 5 two default_delay (sim_runtime 1 3)))
      = tr ++ [Native "37000001" GetPosition].
Proof.
  apply (move_and_wait_returns_at_target (K := sim_Kinesis)
           (sim_runtime 1 3) two default_delay 5).
  reflexivity.
Defined.

(** A flipper whose moves never complete: three rounds, still polling. *)
Lemma move_and_wait_keeps_polling_witness :
  fst (move_and_wait 3 two default_delay (sim_runtime 1 0)) = Pending.
Proof.
  rewrite (move_and_wait_keeps_polling (K := sim_Kinesis)
             (sim_runtime 1 0) two default_delay one 3);
    [reflexivity | reflexivity | reflexivity | discriminate
    | vm_compute; discriminate | vm_compute; discriminate | reflexivity].
Defined.

Lemma move_and_wait_unknown_code_while_polling_witness :
  fst (move_and_wait 5 two default_delay faulty_runtime)
  = Raise (ValueError "7 is not a valid Position").
Proof.
  rewrite (move_and_wait_unknown_code_while_polling (K := faulty_Kinesis)
             faulty_runtime two default_delay one 2 5);
    [reflexivity | reflexivity | reflexivity | discriminate
    | vm_compute; discriminate | vm_compute; discriminate
    | reflexivity | reflexivity | lia].
Defined.

(** Half a second of transit and two delays of 100 ms. *)
Lemma move_and_wait_time_slept_witness :
  (slept (trace (snd (move_and_wait 5 two default_delay (sim_runtime 1 3))))
   == 7 # 10)%Q.
Proof.
  rewrite (move_and_wait_time_slept (K := sim_Kinesis)
             (sim_runtime 1 3) two default_delay one 2 5);
    [reflexivity | reflexivity | reflexivity | discriminate
    | vm_compute; discriminate | vm_compute; discriminate
    | reflexivity | lia].
Defined.

Lemma read_section_lookup_witness :
  read_section [("timeout", "5"); ("host", "a"); ("timeout", "9")]
    !! "timeout" = Some "9" /\
  read_section [("timeout", "5"); ("host", "a"); ("timeout", "9")]
    !! "port" = None.
Proof.
  destruct (read_section_lookup
              [("timeout", "5"); ("host", "a"); ("timeout", "9")] "timeout")
    as [_ H1].
  destruct (read_section_lookup
              [("timeout", "5"); ("host", "a"); ("timeout", "9")] "port")
    as [H2 _].
  split.
  - apply (H1 [("timeout", "5"); ("host", "a")] "9" []);
      [reflexivity | apply not_elem_of_nil].
  - apply H2. vm_compute. intros H. repeat (apply elem_of_cons in H
      as [H|H]; [discriminate H |]). now apply elem_of_nil in H.
Defined.

Lemma default_server_resolved_witness :
  (resolve_default_server example_settings !! "prefs"
     ≫= fun section => section !! "default_server")
  = Some "192.168.1.5:28265".
Proof.
  destruct (default_server_resolved example_settings
              example_prefs example_servers "lab" "192.168.1.5:28265")
    as (_ & H & _); [reflexivity | reflexivity | reflexivity | reflexivity |].
  exact H.
Defined.

(** No configuration file: nothing to resolve. *)
Lemma default_server_kept_witness :
  resolve_default_server ∅ = ∅.
Proof. apply default_server_kept. left. reflexivity. Defined.

Lemma default_server_frame_witness :
  (resolve_default_server example_settings !! "prefs"
     ≫= fun section => section !! "data_dir")
  = Some "~/data".
Proof.
  destruct (default_server_frame example_settings "prefs" "data_dir")
    as [_ H].
  rewrite H; [reflexivity | discriminate].
Defined.
